(** * Gradient-descent tracer and logistic function of the
      logistic-regression notebook (4-week4/1-logistic_regression.ipynb)

    The notebook's own code is three small cells: [logistic_function], a
    gradient-descent tracer taking the gradient as a function together with
    the two gradients [shallow_gradient] and [steep_gradient], and a second
    tracer of the same name whose gradient [2 * x] is written in the loop.

    Python's arithmetic is duck-typed: the tracer only multiplies and
    subtracts its scalars.  The embedding is therefore written once, over
    an interface [Number] of the operations and literals the cells use, and
    run in two arithmetics:
    - [R], exact real arithmetic, the scalars the specification speaks of
      ("a positive real number", "for every real k");
    - [float], IEEE binary64 with round-to-nearest-even, which is what a
      Python [float] is; the concrete runs of the notebook are evaluated in
      it bit for bit.
    Everything structural (length, first element, recurrence, determinism,
    equivalence of the two tracers) is proved for every [Number].  Closed
    forms, limits and the law [0 * y = 0] belong to exact arithmetic and
    are proved in [R]; rounding and the non-finite values of binary64
    (an overflow to infinity, NaN) are outside them, and the notebook has
    no handling of its own for either.  What binary64 does with NaN and
    with an infinite gradient is stated separately, at the end.

    Beside the three cells, the arithmetic the notebook writes at top
    level is embedded too: the losses it plots against the paths, the
    decision boundary it reads off the predicted probabilities and the
    boundary line it draws from the fitted coefficients.  The fitted
    model and the grids come from libraries and enter as arguments. *)

From Stdlib Require Import PrimFloat.
From Stdlib Require FloatOps FloatAxioms Uint63.
From Stdlib Require Import ZArith List Reals Lra Lia QArith Qabs.
Import ListNotations.

#[local] Close Scope Q_scope.

(** ** The arithmetic the cells rely on *)

(** What the notebook's functions ask of a scalar: the operators [*] and
    [-], int literals used as operands ([2 * x], [start_point = 8]) and
    float literals written in decimal ([0.1], [0.95]), given by numerator
    and denominator of the decimal text. *)
Class Number (T : Type) : Type := {
  mul : T -> T -> T;
  sub : T -> T -> T;
  of_int : Z -> T;
  of_decimal : Z -> Z -> T
}.

(** The order and absolute value the properties are phrased with. *)
Class Ordered (T : Type) : Type := {
  lt : T -> T -> Prop;
  abs : T -> T
}.

#[export] Instance Number_R : Number R := {
  mul := Rmult;
  sub := Rminus;
  of_int := IZR;
  of_decimal := fun n d => (IZR n / IZR d)%R
}.

#[export] Instance Ordered_R : Ordered R := {
  lt := Rlt;
  abs := Rabs
}.

(** An int converted to binary64: exact for magnitudes up to [2^53],
    which covers every literal of the notebook, and rounded to nearest
    below [2^63]. *)
Definition float_of_int (z : Z) : PrimFloat.float :=
  match z with
  | Z0 => PrimFloat.zero
  | Zpos p => PrimFloat.of_uint63 (Uint63.of_Z (Zpos p))
  | Zneg p => PrimFloat.opp (PrimFloat.of_uint63 (Uint63.of_Z (Zpos p)))
  end.

(** A decimal literal is read as the binary64 value nearest to it; for a
    numerator and a denominator that are themselves exact this is the
    correctly rounded quotient. *)
Definition float_of_decimal (n d : Z) : PrimFloat.float :=
  PrimFloat.div (float_of_int n) (float_of_int d).

#[export] Instance Number_float : Number PrimFloat.float := {
  mul := PrimFloat.mul;
  sub := PrimFloat.sub;
  of_int := float_of_int;
  of_decimal := float_of_decimal
}.

#[export] Instance Ordered_float : Ordered PrimFloat.float := {
  lt := fun a b => PrimFloat.ltb a b = true;
  abs := PrimFloat.abs
}.

(** [np.array(path)] keeps the elements of the list and their order. *)
Definition np_array {T : Type} (path : list T) : list T := path.

(** [range(steps)] runs its loop [steps] times, and not at all for a
    negative [steps]. *)
Definition range_len (steps : Z) : nat := Z.to_nat steps.

(** The default of the keyword argument [steps=10]. *)
Definition default_steps : Z := 10%Z.

(** ** Cell "Gradient": the tracer with a gradient function *)

Module GradientCell.
Section Defs.
Context {T : Type} {num : Number T}.

(** The [for] loop of [gradient_descent_update], with its two locals:
    [x] is rebound (Python numbers are immutable), [path] is appended
    to. *)
Fixpoint for_range (learning_rate : T) (gradient_func : T -> T)
         (n : nat) (x : T) (path : list T) : list T :=
  match n with
  | O => np_array path
  | S n' =>
      let grad := gradient_func x in
      let x := sub x (mul learning_rate grad) in
      for_range learning_rate gradient_func n' x (path ++ [x])
  end.

Definition gradient_descent_update
           (start learning_rate : T) (gradient_func : T -> T)
           (steps : Z) : list T :=
  let x := start in
  let path := [start] in
  for_range learning_rate gradient_func (range_len steps) x path.

Definition shallow_gradient (x : T) : T := mul (of_decimal 1 10) x.
Definition steep_gradient (x : T) : T := mul (of_int 2) x.

(** The cell's globals and its two runs. *)
Definition learning_rate : T := of_decimal 1 10.
Definition start_point : T := of_int 8.
Definition path_shallow : list T :=
  gradient_descent_update start_point learning_rate shallow_gradient 10.
Definition path_steep : list T :=
  gradient_descent_update start_point learning_rate steep_gradient 10.
End Defs.
End GradientCell.

(** ** Cell "Learning rate": the tracer with the gradient written in *)

Module LearningRateCell.
Section Defs.
Context {T : Type} {num : Number T}.

Fixpoint for_range (learning_rate : T)
         (n : nat) (x : T) (path : list T) : list T :=
  match n with
  | O => np_array path
  | S n' =>
      let grad := mul (of_int 2) x in
      let x := sub x (mul learning_rate grad) in
      for_range learning_rate n' x (path ++ [x])
  end.

Definition gradient_descent_update
           (start learning_rate : T) (steps : Z) : list T :=
  let x := start in
  let path := [start] in
  for_range learning_rate (range_len steps) x path.

(** The cell's globals; its loop calls the tracer once per rate, with
    the default step count. *)
Definition learning_rates : list T :=
  [of_decimal 1 100; of_decimal 1 10; of_decimal 95 100].
Definition start_point : T := of_int (-8).
Definition paths : list (list T) :=
  map (fun lr => gradient_descent_update start_point lr default_steps)
      learning_rates.
End Defs.
End LearningRateCell.

(** ** Cell "Logistic function" *)

Module LogisticCell.
End LogisticCell.

(** ** Vocabulary of the properties *)

Section Vocabulary.
Context {T : Type} {num : Number T}.

(** One update of the parameter: [x - learning_rate * gradient_func(x)]. *)
Definition update (learning_rate : T) (gradient_func : T -> T) (x : T) : T :=
  sub x (mul learning_rate (gradient_func x)).

(** The values [x], [update x], ..., [update^n x]. *)
Fixpoint iterates (next : T -> T) (n : nat) (x : T) : list T :=
  x :: match n with
       | O => []
       | S n' => iterates next n' (next x)
       end.

(** The gradient [g(x) = k * x] of the quadratic loss [k * x^2 / 2]. *)
Definition linear_gradient (k : T) (x : T) : T := mul k x.

(** The last element of a sequence. *)
Definition final (l : list T) : option T := nth_error l (Nat.pred (length l)).

(** Each element with its successor. *)
Definition adjacent (l : list T) : list (T * T) := combine l (tl l).

Context {ord : Ordered T}.

Definition opposite_sign (a b : T) : Prop :=
  (lt a (of_int 0) /\ lt (of_int 0) b) \/ (lt (of_int 0) a /\ lt b (of_int 0)).

Definition alternating_signs (l : list T) : Prop :=
  Forall (fun p => opposite_sign (fst p) (snd p)) (adjacent l).

Definition abs_strictly_decreasing (l : list T) : Prop :=
  Forall (fun p => lt (abs (snd p)) (abs (fst p))) (adjacent l).


(** The raw values never go up. *)
Definition monotonically_decreasing (l : list T) : Prop :=
  Forall (fun p => ~ lt (fst p) (snd p)) (adjacent l).
End Vocabulary.

(** The exact rational value of a finite binary64 number. *)
Definition float_to_Q (f : PrimFloat.float) : option Q :=
  match FloatOps.Prim2SF f with
  | SpecFloat.S754_zero _ => Some 0%Q
  | SpecFloat.S754_finite s m e =>
      let v := (inject_Z (Zpos m) * Qpower 2 e)%Q in
      Some (if s then Qopp v else v)
  | _ => None
  end.

(** ** The rest of the notebook's own arithmetic *)

(** The ordinates the "Gradient" cell plots against its two paths,
    [0.05 * path_shallow**2] and [path_steep**2]: the losses whose slopes
    the two gradient functions return. *)
Module GradientPlot.
End GradientPlot.

(** The cell that reads the decision boundary off the fitted model:
    [decision_boundary = X_new[y_proba[:, 1] >= 0.5][0, 0]].  [X_new] is
    the column of grid points and [y_proba] the two-column array the
    classifier returned for it; both come from outside the notebook and
    are taken as they are.  [None] stands for the [IndexError] numpy
    raises. *)
Module ProbabilityCell.
(** [y_proba[:, 1]] *)
Definition column1 (y_proba : list (PrimFloat.float * PrimFloat.float))
  : list PrimFloat.float := map snd y_proba.

(** [p >= 0.5] in binary64; false for NaN. *)
Definition ge_half (p : PrimFloat.float) : bool := PrimFloat.leb 0x1p-1 p.

(** [rows[mask]]: the rows whose mask entry is true, in order; the mask
    must have one entry per row. *)
Fixpoint boolean_index (rows : list PrimFloat.float) (mask : list bool)
  : option (list PrimFloat.float) :=
  match rows, mask with
  | [], [] => Some []
  | r :: rows', b :: mask' =>
      match boolean_index rows' mask' with
      | Some sel => Some (if b then r :: sel else sel)
      | None => None
      end
  | _, _ => None
  end.

Definition decision_boundary
           (X_new : list PrimFloat.float)
           (y_proba : list (PrimFloat.float * PrimFloat.float))
  : option PrimFloat.float :=
  match boolean_index X_new (map ge_half (column1 y_proba)) with
  | Some (first :: _) => Some first
  | _ => None
  end.
End ProbabilityCell.

(** The cell that draws the boundary of the two-feature model:
    [boundary = -((coef_[0, 0] * left_right + intercept_[0]) / coef_[0, 1])],
    computed element by element over the array [left_right]. *)
Module ContourCell.
End ContourCell.

Section MoreVocabulary.
Context {T : Type} {num : Number T} {ord : Ordered T}.

Definition abs_strictly_increasing (l : list T) : Prop :=
  Forall (fun p => lt (abs (fst p)) (abs (snd p))) (adjacent l).
End MoreVocabulary.

(** A binary64 value that is neither an infinity nor NaN. *)
Definition finite (f : PrimFloat.float) : bool :=
  match FloatOps.Prim2SF f with
  | SpecFloat.S754_zero _ | SpecFloat.S754_finite _ _ _ => true
  | _ => false
  end.

(** A binary64 infinity of either sign. *)
Definition infinite (f : PrimFloat.float) : bool :=
  match FloatOps.Prim2SF f with
  | SpecFloat.S754_infinity _ => true
  | _ => false
  end.

(** Decides a comparison of absolute values of real constants. *)
Ltac sign_of_Rabs :=
  unfold Rabs; repeat destruct (Rcase_abs _); lra.

(** ** The loop computes the iterates *)

Section Loop.
Context {T : Type} {num : Number T}.
Variables (learning_rate : T) (gradient_func : T -> T).

Lemma for_range_iterates (n : nat) (x : T) (pre : list T) :
  GradientCell.for_range learning_rate gradient_func n x (pre ++ [x])
  = pre ++ iterates (update learning_rate gradient_func) n x.
Proof.
  revert x pre; induction n as [|n IH]; intros x pre; simpl.
  - reflexivity.
  - rewrite IH, <- app_assoc. reflexivity.
Qed.

Lemma gradient_descent_update_iterates (start : T) (steps : Z) :
  GradientCell.gradient_descent_update start learning_rate gradient_func steps
  = iterates (update learning_rate gradient_func) (range_len steps) start.
Proof.
  unfold GradientCell.gradient_descent_update.
  apply (for_range_iterates (range_len steps) start []).
Qed.
End Loop.

Section Iterates.
Context {T : Type}.
Variable next : T -> T.

Lemma iterates_length (n : nat) (x : T) :
  length (iterates next n x) = S n.
Proof.
  revert x; induction n as [|n IH]; intros x; simpl; [|rewrite IH]; reflexivity.
Qed.

Lemma iterates_nth (n i : nat) (x : T) :
  (i <= n)%nat -> nth_error (iterates next n x) i = Some (Nat.iter i next x).
Proof.
  revert i x; induction n as [|n IH]; intros [|i] x Hi; simpl; try reflexivity.
  - lia.
  - rewrite IH by lia. rewrite <- Nat.iter_succ_r. reflexivity.
Qed.

Lemma iterates_ext (next' : T -> T) (n : nat) (x : T) :
  (forall y, next y = next' y) ->
  iterates next n x = iterates next' n x.
Proof.
  intros E; revert x; induction n as [|n IH]; intros x; simpl.
  - reflexivity.
  - rewrite E, IH. reflexivity.
Qed.

Lemma iterates_fixed (n : nat) (x : T) :
  next x = x -> Forall (fun v => v = x) (iterates next n x).
Proof.
  intros Hx; induction n as [|n IH]; simpl.
  - repeat constructor.
  - constructor; [reflexivity|]. rewrite Hx. exact IH.
Qed.

Lemma adjacent_iterates_succ (n : nat) (x : T) :
  adjacent (iterates next (S n) x)
  = (x, next x) :: adjacent (iterates next n (next x)).
Proof. destruct n; reflexivity. Qed.

Lemma iterates_adjacent (P : T * T -> Prop) (n : nat) (x : T) :
  (forall y, P (y, next y)) ->
  Forall P (adjacent (iterates next n x)).
Proof.
  intros HP; revert x; induction n as [|n IH]; intros x.
  - constructor.
  - rewrite adjacent_iterates_succ.
    constructor; [apply HP | apply IH].
Qed.

Lemma iterates_final (n : nat) (x : T) :
  final (iterates next n x) = Some (Nat.iter n next x).
Proof.
  unfold final. rewrite iterates_length. simpl. apply iterates_nth. lia.
Qed.
End Iterates.

(** The tracer of the second cell runs the same loop as the first one
    given [steep_gradient]. *)
Lemma hard_coded_loop {T : Type} {num : Number T}
      (learning_rate : T) (n : nat) (x : T) (path : list T) :
  LearningRateCell.for_range learning_rate n x path
  = GradientCell.for_range learning_rate GradientCell.steep_gradient n x path.
Proof.
  revert x path; induction n as [|n IH]; intros x path; simpl.
  - reflexivity.
  - rewrite IH. reflexivity.
Qed.

Lemma hard_coded_iterates {T : Type} {num : Number T}
      (start learning_rate : T) (steps : Z) :
  LearningRateCell.gradient_descent_update start learning_rate steps
  = iterates (update learning_rate GradientCell.steep_gradient)
             (range_len steps) start.
Proof.
  unfold LearningRateCell.gradient_descent_update.
  rewrite hard_coded_loop.
  apply (for_range_iterates learning_rate GradientCell.steep_gradient
                            (range_len steps) start []).
Qed.

(** ** Shape of the trajectory *)

(** C1: for a non-negative step count the tracer returns [steps + 1]
    scalars, the first is the starting value, and each later element [i] is
    its predecessor minus the learning rate times the gradient at the
    predecessor.  This holds in every arithmetic. *)
Theorem trajectory_recurrence {T : Type} {num : Number T}
        (start learning_rate : T) (gradient_func : T -> T) (steps : Z) :
  (0 <= steps)%Z ->
  let path :=
    GradientCell.gradient_descent_update start learning_rate gradient_func steps in
  Z.of_nat (length path) = (steps + 1)%Z /\
  nth_error path 0 = Some start /\
  forall i : nat, (1 <= i)%nat -> (Z.of_nat i <= steps)%Z ->
    exists previous : T,
      nth_error path (i - 1) = Some previous /\
      nth_error path i
      = Some (sub previous (mul learning_rate (gradient_func previous))).
Proof.
  intros Hsteps path. subst path.
  rewrite gradient_descent_update_iterates. unfold range_len.
  split; [|split].
  - rewrite iterates_length. lia.
  - apply iterates_nth. lia.
  - intros i Hi Hle.
    exists (Nat.iter (i - 1) (update learning_rate gradient_func) start).
    split.
    + apply iterates_nth. lia.
    + rewrite iterates_nth by lia.
      destruct i as [|j]; [lia|].
      replace (S j - 1)%nat with j by lia. reflexivity.
Qed.

Lemma trajectory_recurrence_witness :
  (0 <= 10)%Z /\
  let path :=
    GradientCell.gradient_descent_update
      (of_int 8 : PrimFloat.float) (of_decimal 1 10) GradientCell.shallow_gradient 10%Z in
  Z.of_nat (length path) = (10 + 1)%Z /\
  nth_error path 0 = Some (of_int 8) /\
  forall i : nat, (1 <= i)%nat -> (Z.of_nat i <= 10)%Z ->
    exists previous : PrimFloat.float,
      nth_error path (i - 1) = Some previous /\
      nth_error path i
      = Some (sub previous
                  (mul (of_decimal 1 10) (GradientCell.shallow_gradient previous))).
Proof.
  split; [lia|].
  apply (trajectory_recurrence (of_int 8 : PrimFloat.float) (of_decimal 1 10)
                               GradientCell.shallow_gradient 10%Z).
  lia.
Defined.

(** C6: with [steps = 0] the output is exactly the one-element sequence
    holding the starting value, whatever the gradient and the rate. *)
Theorem zero_steps {T : Type} {num : Number T}
        (start learning_rate : T) (gradient_func : T -> T) :
  GradientCell.gradient_descent_update start learning_rate gradient_func 0%Z
  = [start].
Proof.
  unfold GradientCell.gradient_descent_update.
  change (range_len 0) with 0%nat.
  reflexivity.
Qed.



(** C10: the tracer with the gradient [2 * x] written in its loop returns,
    for every start, rate and step count, the sequence the general tracer
    returns when given [steep_gradient]. *)
Theorem hard_coded_tracer_is_steep {T : Type} {num : Number T}
        (start learning_rate : T) (steps : Z) :
  LearningRateCell.gradient_descent_update start learning_rate steps
  = GradientCell.gradient_descent_update
      start learning_rate GradientCell.steep_gradient steps.
Proof.
  unfold LearningRateCell.gradient_descent_update,
         GradientCell.gradient_descent_update.
  apply hard_coded_loop.
Qed.

(** ** Exact arithmetic: closed form and convergence on a quadratic loss *)

Lemma linear_update (r k x : R) :
  update r (linear_gradient k) x = ((1 - r * k) * x)%R.
Proof. unfold update, linear_gradient; simpl. ring. Qed.

Lemma linear_iter (r k x0 : R) (i : nat) :
  Nat.iter i (update r (linear_gradient k)) x0 = (x0 * (1 - r * k) ^ i)%R.
Proof.
  induction i as [|i IH].
  - simpl. ring.
  - rewrite Nat.iter_succ, IH, linear_update. simpl. ring.
Qed.








(** ** The runs of the notebook, in exact and in binary64 arithmetic *)

(** The decimal literals of the cells, as binary64 reads them. *)
Lemma float_literals :
  (of_decimal 1 10 : PrimFloat.float) = 0x1.999999999999ap-4%float /\
  (of_decimal 95 100 : PrimFloat.float) = 0x1.e666666666666p-1%float /\
  (of_decimal 1 100 : PrimFloat.float) = 0x1.47ae147ae147bp-7%float /\
  (of_int 8 : PrimFloat.float) = 0x1p+3%float /\
  (of_int (-8) : PrimFloat.float) = (-0x1p+3)%float.
Proof. repeat split; vm_compute; reflexivity. Qed.

Lemma steep_update_high_rate (x : R) :
  update (of_decimal 95 100) GradientCell.steep_gradient x
  = (- (9 / 10) * x)%R.
Proof. unfold update, GradientCell.steep_gradient; simpl. lra. Qed.

(** In exact arithmetic the run at rate 0.95 is [-8 * (-0.9)^i]. *)
Lemma high_rate_run_exact :
  LearningRateCell.gradient_descent_update
    (T:=R) LearningRateCell.start_point (of_decimal 95 100) default_steps
  = iterates (fun x => (- (9 / 10) * x)%R) 10 (-8)%R.
Proof.
  rewrite hard_coded_iterates.
  apply iterates_ext. exact steep_update_high_rate.
Qed.

(** In binary64 the same run, element by element (the hexadecimal
    notation is exact): -8, then 7.2, -6.48, 5.832, ... each rounded. *)
Lemma high_rate_run_binary64 :
  LearningRateCell.gradient_descent_update
    (T:=PrimFloat.float) LearningRateCell.start_point (of_decimal 95 100)
    default_steps
  = [ (-0x1p+3)%float; 0x1.cccccccccccccp+2%float;
      (-0x1.9eb851eb851eap+2)%float; 0x1.753f7ced91686p+2%float;
      (-0x1.4fec56d5cfaacp+2)%float; 0x1.2e54b48d3ae68p+2%float;
      (-0x1.101908e581cf6p+2)%float; 0x1.e9c6a99d1cdb8p+1%float;
      (-0x1.b8cc6573cd2bep+1)%float; 0x1.8cb7f4e838a78p+1%float;
      (-0x1.650bf60432fd2p+1)%float ].
Proof. vm_compute. reflexivity. Qed.

(** C4: the run from -8 at rate 0.95 on the gradient [2 * x], ten steps:
    the signs alternate strictly, the absolute values decrease strictly,
    and the raw values are not monotonically decreasing.  This holds in
    exact arithmetic and in the binary64 arithmetic Python computes in. *)
Theorem high_rate_run_oscillates :
  (let path :=
     LearningRateCell.gradient_descent_update
       (T:=R) LearningRateCell.start_point (of_decimal 95 100) default_steps in
   alternating_signs path /\ abs_strictly_decreasing path
   /\ ~ monotonically_decreasing path)
  /\
  (let path :=
     LearningRateCell.gradient_descent_update
       (T:=PrimFloat.float) LearningRateCell.start_point (of_decimal 95 100)
       default_steps in
   alternating_signs path /\ abs_strictly_decreasing path
   /\ ~ monotonically_decreasing path).
Proof.
  split; intros path; subst path.
  - rewrite high_rate_run_exact.
    unfold alternating_signs, abs_strictly_decreasing,
           monotonically_decreasing, opposite_sign.
    cbn [iterates adjacent combine tl lt abs of_int Number_R Ordered_R].
    split; [|split].
    + repeat constructor; cbn [fst snd]; lra.
    + repeat constructor; cbn [fst snd]; sign_of_Rabs.
    + intros H. inversion H as [|p l Hp _]. apply Hp. cbn [fst snd]. lra.
  - rewrite high_rate_run_binary64.
    unfold alternating_signs, abs_strictly_decreasing,
           monotonically_decreasing, opposite_sign.
    cbn [adjacent combine tl lt abs Ordered_float].
    split; [|split].
    + repeat constructor; cbn [fst snd];
        first [ left; split; vm_compute; reflexivity
              | right; split; vm_compute; reflexivity ].
    + repeat constructor; cbn [fst snd]; vm_compute; reflexivity.
    + intros H. inversion H as [|p l Hp _]. apply Hp. vm_compute. reflexivity.
Qed.

(** C5: the run from 8 at rate 0.1 on the shallow gradient [0.1 * x], ten
    steps, ends at [8 * 0.99^10], which is 7.24 to two decimals.  In
    binary64 the final element, [0x1.cf0b2ad680bcp+2], is within [10^-14]
    of that value. *)
Theorem shallow_run_final :
  (final (GradientCell.path_shallow (T:=R)) = Some (8 * (99 / 100) ^ 10)%R
   /\ (Rabs (8 * (99 / 100) ^ 10 - 7.24) < 0.005)%R)
  /\
  (exists (f : PrimFloat.float) (q : Q),
      final (GradientCell.path_shallow (T:=PrimFloat.float)) = Some f
      /\ float_to_Q f = Some q
      /\ (Qabs (q - 8 * (99 # 100) ^ 10) < 1 # 100000000000000)%Q).
Proof.
  split; [split|].
  - unfold GradientCell.path_shallow.
    rewrite gradient_descent_update_iterates, iterates_final.
    change (@GradientCell.shallow_gradient R _)
      with (linear_gradient (of_decimal 1 10 : R)).
    rewrite linear_iter. change (range_len 10) with 10%nat.
    unfold GradientCell.start_point, GradientCell.learning_rate. simpl of_decimal.
    simpl of_int.
    replace (1 - 1 / 10 * (1 / 10))%R with (99 / 100)%R by lra.
    reflexivity.
  - apply Rabs_def1; simpl; lra.
  - eexists _, _. split; [|split].
    + vm_compute. reflexivity.
    + vm_compute. reflexivity.
    + vm_compute. reflexivity.
Qed.

(** ** Further properties of the tracer, in every arithmetic *)

Section MoreIterates.
Context {T : Type}.
Variable next : T -> T.

Lemma iterates_app (n m : nat) (x : T) :
  iterates next (n + m) x
  = iterates next n x ++ tl (iterates next m (Nat.iter n next x)).
Proof.
  revert x; induction n as [|n IH]; intros x.
  - destruct m; reflexivity.
  - change (iterates next (S n + m) x)
      with (x :: iterates next (n + m) (next x)).
    rewrite IH, <- Nat.iter_succ_r. reflexivity.
Qed.

Lemma iterates_ext_in (next' : T -> T) (n : nat) (x : T) :
  (forall y, In y (iterates next n x) -> next y = next' y) ->
  iterates next n x = iterates next' n x.
Proof.
  revert x; induction n as [|n IH]; intros x H.
  - reflexivity.
  - change (x :: iterates next n (next x) = x :: iterates next' n (next' x)).
    rewrite <- (H x) by (left; reflexivity).
    rewrite IH; [reflexivity|].
    intros y Hy. apply H. right. exact Hy.
Qed.

Lemma iterates_adjacent_inv (Inv : T -> Prop) (P : T * T -> Prop)
      (n : nat) (x : T) :
  Inv x ->
  (forall y, Inv y -> Inv (next y) /\ P (y, next y)) ->
  Forall P (adjacent (iterates next n x)).
Proof.
  intros Hx Hstep; revert x Hx; induction n as [|n IH]; intros x Hx.
  - constructor.
  - rewrite adjacent_iterates_succ.
    destruct (Hstep x Hx) as [Hnx HP].
    constructor; [exact HP | apply IH; exact Hnx].
Qed.

Lemma iterates_inv (Inv : T -> Prop) (n : nat) (x : T) :
  Inv x -> (forall y, Inv y -> Inv (next y)) ->
  Forall Inv (iterates next n x).
Proof.
  intros Hx Hstep; revert x Hx; induction n as [|n IH]; intros x Hx.
  - repeat constructor; exact Hx.
  - change (Forall Inv (x :: iterates next n (next x))).
    constructor; [exact Hx | apply IH, Hstep, Hx].
Qed.
End MoreIterates.

(** X1: a step count that is zero or negative runs no update at all: both
    tracers return the one-element sequence holding the start. *)
Theorem nonpositive_steps {T : Type} {num : Number T}
        (start learning_rate : T) (gradient_func : T -> T) (steps : Z) :
  (steps <= 0)%Z ->
  GradientCell.gradient_descent_update start learning_rate gradient_func steps
  = [start]
  /\ LearningRateCell.gradient_descent_update start learning_rate steps
     = [start].
Proof.
  intros Hs.
  unfold GradientCell.gradient_descent_update,
         LearningRateCell.gradient_descent_update, range_len.
  replace (Z.to_nat steps) with 0%nat by lia.
  split; reflexivity.
Qed.

Lemma nonpositive_steps_witness :
  GradientCell.gradient_descent_update
    (of_int 8 : PrimFloat.float) (of_decimal 1 10)
    GradientCell.steep_gradient (-3)%Z
  = [of_int 8]
  /\ LearningRateCell.gradient_descent_update
       (of_int 8 : PrimFloat.float) (of_decimal 1 10) (-3)%Z
     = [of_int 8].
Proof.
  apply (nonpositive_steps (of_int 8 : PrimFloat.float) (of_decimal 1 10)
                           GradientCell.steep_gradient (-3)%Z).
  lia.
Defined.

(** X2: a longer run continues a shorter one.  The path of [n + m] steps
    is the path of [n] steps followed by the path of [m] steps started at
    the last element of the first, without repeating that element. *)
Theorem trajectory_continues {T : Type} {num : Number T}
        (start learning_rate : T) (gradient_func : T -> T) (n m : Z) :
  (0 <= n)%Z -> (0 <= m)%Z ->
  exists mid : T,
    final (GradientCell.gradient_descent_update
             start learning_rate gradient_func n) = Some mid
    /\ GradientCell.gradient_descent_update
         start learning_rate gradient_func (n + m)
       = GradientCell.gradient_descent_update
           start learning_rate gradient_func n
         ++ tl (GradientCell.gradient_descent_update
                  mid learning_rate gradient_func m).
Proof.
  intros Hn Hm.
  exists (Nat.iter (range_len n) (update learning_rate gradient_func) start).
  rewrite !gradient_descent_update_iterates. split.
  - apply iterates_final.
  - replace (range_len (n + m)) with (range_len n + range_len m)%nat
      by (unfold range_len; lia).
    apply iterates_app.
Qed.

Lemma trajectory_continues_witness :
  exists mid : PrimFloat.float,
    final (GradientCell.gradient_descent_update
             (of_int 8) (of_decimal 1 10) GradientCell.steep_gradient 4%Z)
    = Some mid
    /\ GradientCell.gradient_descent_update
         (of_int 8) (of_decimal 1 10) GradientCell.steep_gradient (4 + 6)%Z
       = GradientCell.gradient_descent_update
           (of_int 8) (of_decimal 1 10) GradientCell.steep_gradient 4%Z
         ++ tl (GradientCell.gradient_descent_update
                  mid (of_decimal 1 10) GradientCell.steep_gradient 6%Z).
Proof.
  apply (trajectory_continues (of_int 8 : PrimFloat.float) (of_decimal 1 10)
                              GradientCell.steep_gradient 4%Z 6%Z); lia.
Defined.

(** X3: the output depends on the gradient function only through its
    values at the elements of the path: a second gradient function that
    agrees with the first on the path of the first gives the same path. *)
Theorem gradient_read_on_path_only {T : Type} {num : Number T}
        (start learning_rate : T) (gradient1 gradient2 : T -> T) (steps : Z) :
  (forall x,
      In x (GradientCell.gradient_descent_update
              start learning_rate gradient1 steps) ->
      gradient1 x = gradient2 x) ->
  GradientCell.gradient_descent_update start learning_rate gradient1 steps
  = GradientCell.gradient_descent_update start learning_rate gradient2 steps.
Proof.
  rewrite !gradient_descent_update_iterates. intros H.
  apply iterates_ext_in. intros y Hy.
  unfold update. rewrite (H y Hy). reflexivity.
Qed.

Lemma gradient_read_on_path_only_witness :
  GradientCell.gradient_descent_update
    0%R 1%R (fun x => (2 * x)%R) 3%Z
  = GradientCell.gradient_descent_update
      0%R 1%R (fun x => (x * x * x)%R) 3%Z.
Proof.
  apply (gradient_read_on_path_only
           0%R 1%R (fun x => (2 * x)%R) (fun x => (x * x * x)%R) 3%Z).
  intros x Hx.
  assert (Hpath : Forall (fun v => v = 0%R)
                    (GradientCell.gradient_descent_update
                       0%R 1%R (fun x => (2 * x)%R) 3%Z)).
  { rewrite gradient_descent_update_iterates.
    apply iterates_fixed. unfold update; simpl. ring. }
  rewrite Forall_forall in Hpath. rewrite (Hpath x Hx). ring.
Defined.

(** ** Further properties of the tracer in exact arithmetic *)

(** X4: a start at which the gradient is zero is never left: every
    element of the output is the start, for every rate and step count. *)
Theorem stationary_start (x0 r : R) (gradient_func : R -> R) (steps : Z) :
  gradient_func x0 = 0%R ->
  Forall (fun v => v = x0)
         (GradientCell.gradient_descent_update x0 r gradient_func steps).
Proof.
  intros Hg. rewrite gradient_descent_update_iterates.
  apply iterates_fixed. unfold update; simpl. rewrite Hg. ring.
Qed.

Lemma stationary_start_witness :
  Forall (fun v => v = 0%R)
         (GradientCell.gradient_descent_update
            0%R 0.95%R GradientCell.steep_gradient 10%Z).
Proof.
  apply (stationary_start 0%R 0.95%R GradientCell.steep_gradient 10%Z).
  unfold GradientCell.steep_gradient; simpl. lra.
Defined.

Lemma linear_path (k r x0 : R) (steps : Z) :
  GradientCell.gradient_descent_update x0 r (linear_gradient k) steps
  = iterates (fun x => ((1 - r * k) * x)%R) (range_len steps) x0.
Proof.
  rewrite gradient_descent_update_iterates.
  apply iterates_ext. intros y. apply linear_update.
Qed.

(** X5: with [g(x) = k * x] and [r * k = 1] the first update lands on the
    minimum: every element after the start is 0. *)
Theorem unit_rate_reaches_minimum (k r x0 : R) (steps : Z) (i : nat) :
  (r * k = 1)%R -> (1 <= i)%nat -> (Z.of_nat i <= steps)%Z ->
  nth_error
    (GradientCell.gradient_descent_update x0 r (linear_gradient k) steps) i
  = Some 0%R.
Proof.
  intros Hrk Hi Hle.
  rewrite gradient_descent_update_iterates.
  rewrite iterates_nth by (unfold range_len; lia).
  rewrite linear_iter, Hrk.
  destruct i as [|j]; [lia|]. f_equal. simpl. ring.
Qed.

Lemma unit_rate_reaches_minimum_witness :
  nth_error
    (GradientCell.gradient_descent_update
       (-8)%R (1 / 2)%R (linear_gradient 2%R) 10%Z) 1
  = Some 0%R.
Proof.
  apply (unit_rate_reaches_minimum 2%R (1 / 2)%R (-8)%R 10%Z 1); [lra|lia|lia].
Defined.

(** X6: with [g(x) = k * x], a rate with [r * k > 2] or [r * k < 0] and a
    start other than 0, the absolute values along the output increase
    strictly: the run moves away from the minimum at every step. *)
Theorem linear_divergence (k r x0 : R) (steps : Z) :
  (2 < r * k \/ r * k < 0)%R -> x0 <> 0%R ->
  abs_strictly_increasing
    (GradientCell.gradient_descent_update x0 r (linear_gradient k) steps).
Proof.
  intros Hrk Hx0. rewrite linear_path.
  apply (iterates_adjacent_inv _ (fun y => y <> 0%R)); [exact Hx0|].
  intros y Hy. cbn [fst snd lt abs Ordered_R]. split.
  - intros H0. apply Hy.
    destruct (Rmult_integral _ _ H0) as [Hq|Hq]; [|exact Hq].
    destruct Hrk; lra.
  - rewrite Rabs_mult.
    assert (Hq : (1 < Rabs (1 - r * k))%R).
    { unfold Rabs; destruct (Rcase_abs _); destruct Hrk; lra. }
    pose proof (Rabs_pos_lt y Hy). nra.
Qed.

Lemma linear_divergence_witness :
  abs_strictly_increasing
    (GradientCell.gradient_descent_update
       (-8)%R 1.5%R (linear_gradient 2%R) 10%Z).
Proof.
  apply (linear_divergence 2%R 1.5%R (-8)%R 10%Z); [left|]; lra.
Defined.

(** X7: with [g(x) = k * x] and [0 <= r * k <= 1] the run never steps
    over the minimum: every element lies between 0 and its predecessor,
    so the path keeps the sign of the start and moves monotonically. *)
Theorem small_rate_no_overshoot (k r x0 : R) (steps : Z) :
  (0 <= r * k <= 1)%R ->
  Forall (fun p => (0 <= snd p <= fst p)%R \/ (fst p <= snd p <= 0)%R)
         (adjacent
            (GradientCell.gradient_descent_update
               x0 r (linear_gradient k) steps)).
Proof.
  intros Hrk. rewrite linear_path.
  apply iterates_adjacent. intros y; cbn [fst snd].
  destruct (Rle_or_lt 0 y); [left|right]; nra.
Qed.

Lemma small_rate_no_overshoot_witness :
  Forall (fun p => (0 <= snd p <= fst p)%R \/ (fst p <= snd p <= 0)%R)
         (adjacent
            (GradientCell.gradient_descent_update
               (-8)%R 0.1%R (linear_gradient 2%R) 10%Z)).
Proof.
  apply (small_rate_no_overshoot 2%R 0.1%R (-8)%R 10%Z). lra.
Defined.

(** X8: with [g(x) = k * x], [r * k > 1] and a start other than 0, every
    update steps over the minimum: consecutive elements have opposite
    signs. *)
Theorem large_rate_overshoots (k r x0 : R) (steps : Z) :
  (1 < r * k)%R -> x0 <> 0%R ->
  alternating_signs
    (GradientCell.gradient_descent_update x0 r (linear_gradient k) steps).
Proof.
  intros Hrk Hx0. rewrite linear_path.
  apply (iterates_adjacent_inv _ (fun y => y <> 0%R)); [exact Hx0|].
  intros y Hy. cbn [fst snd]. split.
  - intros H0. apply Hy.
    destruct (Rmult_integral _ _ H0) as [Hq|Hq]; [lra|exact Hq].
  - unfold opposite_sign. cbn [lt of_int Number_R Ordered_R].
    destruct (Rtotal_order y 0) as [Hneg|[Hz|Hpos]]; [left|contradiction|right];
      split; nra.
Qed.

Lemma large_rate_overshoots_witness :
  alternating_signs
    (GradientCell.gradient_descent_update
       (-8)%R 0.95%R (linear_gradient 2%R) 10%Z).
Proof.
  apply (large_rate_overshoots 2%R 0.95%R (-8)%R 10%Z); lra.
Defined.

(** X9: with [g(x) = k * x] and [r * k = 2] the run neither converges nor
    diverges: element [i] is the start with the sign flipped [i] times. *)
Theorem critical_rate_flips (k r x0 : R) (steps : Z) (i : nat) :
  (r * k = 2)%R -> (Z.of_nat i <= steps)%Z ->
  nth_error
    (GradientCell.gradient_descent_update x0 r (linear_gradient k) steps) i
  = Some (if Nat.even i then x0 else (- x0)%R).
Proof.
  intros Hrk Hle.
  rewrite gradient_descent_update_iterates.
  rewrite iterates_nth by (unfold range_len; lia).
  rewrite linear_iter, Hrk. f_equal.
  replace (1 - 2)%R with (-1)%R by ring.
  clear Hle. induction i as [|j IH].
  - simpl. ring.
  - rewrite Nat.even_succ, <- Nat.negb_even.
    change ((-1) ^ S j)%R with (-1 * (-1) ^ j)%R.
    destruct (Nat.even j); simpl negb; cbv iota; nra.
Qed.

Lemma critical_rate_flips_witness :
  nth_error
    (GradientCell.gradient_descent_update
       (-8)%R 1%R (linear_gradient 2%R) 10%Z) 3
  = Some (if Nat.even 3 then (-8)%R else (- -8)%R).
Proof.
  apply (critical_rate_flips 2%R 1%R (-8)%R 10%Z 3); [lra|lia].
Defined.

(** X10: in exact arithmetic element [i] of the tracer with the gradient
    written in is [start * (1 - 2 * learning_rate)^i]. *)
Theorem hard_coded_closed_form (start learning_rate : R) (steps : Z) (i : nat) :
  (Z.of_nat i <= steps)%Z ->
  nth_error
    (LearningRateCell.gradient_descent_update start learning_rate steps) i
  = Some (start * (1 - 2 * learning_rate) ^ i)%R.
Proof.
  intros Hle. rewrite hard_coded_iterates.
  rewrite iterates_nth by (unfold range_len; lia).
  change (@GradientCell.steep_gradient R _) with (linear_gradient 2%R).
  rewrite linear_iter. f_equal. f_equal. f_equal. ring.
Qed.

Lemma hard_coded_closed_form_witness :
  nth_error
    (LearningRateCell.gradient_descent_update (-8)%R 0.95%R 10%Z) 4
  = Some ((-8) * (1 - 2 * 0.95) ^ 4)%R.
Proof.
  apply (hard_coded_closed_form (-8)%R 0.95%R 10%Z 4). lia.
Defined.






(** ** Further properties of the logistic function *)













(** ** The decision boundaries read off the fitted models *)

Lemma boolean_index_shape (rows : list PrimFloat.float) (mask : list bool) :
  ProbabilityCell.boolean_index rows mask = None
  <-> length rows <> length mask.
Proof.
  revert mask; induction rows as [|r rows IH]; intros [|b mask]; simpl;
    try (split; [discriminate | intros H; congruence]);
    try (split; [intros _; discriminate | reflexivity]).
  specialize (IH mask).
  destruct (ProbabilityCell.boolean_index rows mask) as [sel|].
  - split; [discriminate|]. intros H. exfalso.
    assert (Hne : length rows <> length mask) by congruence.
    apply IH in Hne. discriminate.
  - split; [|reflexivity]. intros _ H.
    assert (Heq : length rows = length mask) by congruence.
    destruct IH as [IH _]. apply (IH eq_refl). exact Heq.
Qed.

Lemma boolean_index_first (rows : list PrimFloat.float) (mask : list bool)
      (sel : list PrimFloat.float) :
  ProbabilityCell.boolean_index rows mask = Some sel ->
  match sel with
  | [] => Forall (fun b => b = false) mask
  | first :: _ =>
      exists i : nat,
        nth_error rows i = Some first /\ nth_error mask i = Some true
        /\ forall j, (j < i)%nat -> nth_error mask j = Some false
  end.
Proof.
  revert mask sel; induction rows as [|r rows IH]; intros [|b mask] sel; simpl;
    try discriminate.
  - intros [= <-]. constructor.
  - destruct (ProbabilityCell.boolean_index rows mask) as [sel'|] eqn:E;
      [|discriminate].
    specialize (IH mask sel' E).
    intros [= <-]. destruct b.
    + exists 0%nat. repeat split. intros j Hj. lia.
    + destruct sel' as [|first rest].
      * constructor; [reflexivity | exact IH].
      * destruct IH as (i & Hrow & Hmask & Hbefore).
        exists (S i). repeat split; try assumption.
        intros [|j] Hj; [reflexivity|]. apply Hbefore. lia.
Qed.

(** X19: when the grid and the probabilities have the same number of rows,
    the decision boundary is the first grid point whose second-column
    probability is at least 0.5: it sits at an index where the
    probability reaches 0.5 and no earlier row does.  When no row reaches
    0.5 there is no boundary (the [IndexError]). *)
Theorem decision_boundary_first_crossing
        (X_new : list PrimFloat.float)
        (y_proba : list (PrimFloat.float * PrimFloat.float)) :
  length X_new = length y_proba ->
  match ProbabilityCell.decision_boundary X_new y_proba with
  | Some b =>
      exists (i : nat) (p : PrimFloat.float),
        nth_error X_new i = Some b
        /\ nth_error (ProbabilityCell.column1 y_proba) i = Some p
        /\ ProbabilityCell.ge_half p = true
        /\ forall (j : nat) (q : PrimFloat.float),
            (j < i)%nat ->
            nth_error (ProbabilityCell.column1 y_proba) j = Some q ->
            ProbabilityCell.ge_half q = false
  | None =>
      Forall (fun p => ProbabilityCell.ge_half p = false)
             (ProbabilityCell.column1 y_proba)
  end.
Proof.
  intros Hlen. unfold ProbabilityCell.decision_boundary.
  set (col := ProbabilityCell.column1 y_proba).
  destruct (ProbabilityCell.boolean_index
              X_new (map ProbabilityCell.ge_half col)) as [sel|] eqn:E.
  - apply boolean_index_first in E. destruct sel as [|first rest].
    + rewrite Forall_map in E. exact E.
    + destruct E as (i & Hrow & Hmask & Hbefore).
      rewrite nth_error_map in Hmask.
      destruct (nth_error col i) as [p|] eqn:Hp; [|discriminate].
      exists i, p. repeat split; try assumption.
      * simpl in Hmask. congruence.
      * intros j q Hj Hq. specialize (Hbefore j Hj).
        rewrite nth_error_map, Hq in Hbefore. simpl in Hbefore. congruence.
  - apply boolean_index_shape in E. exfalso. apply E.
    unfold col, ProbabilityCell.column1. rewrite !length_map. exact Hlen.
Qed.

Lemma decision_boundary_first_crossing_witness :
  match ProbabilityCell.decision_boundary
          [0x1p+0; 0x1.8p+0; 0x1p+1]%float
          [(0x1.8p-1, 0x1p-2); (0x1p-1, 0x1p-1); (0x1p-2, 0x1.8p-1)]%float with
  | Some b =>
      exists (i : nat) (p : PrimFloat.float),
        nth_error [0x1p+0; 0x1.8p+0; 0x1p+1]%float i = Some b
        /\ nth_error
             (ProbabilityCell.column1
                [(0x1.8p-1, 0x1p-2); (0x1p-1, 0x1p-1); (0x1p-2, 0x1.8p-1)]%float)
             i = Some p
        /\ ProbabilityCell.ge_half p = true
        /\ forall (j : nat) (q : PrimFloat.float),
            (j < i)%nat ->
            nth_error
              (ProbabilityCell.column1
                 [(0x1.8p-1, 0x1p-2); (0x1p-1, 0x1p-1); (0x1p-2, 0x1.8p-1)]%float)
              j = Some q ->
            ProbabilityCell.ge_half q = false
  | None =>
      Forall (fun p => ProbabilityCell.ge_half p = false)
             (ProbabilityCell.column1
                [(0x1.8p-1, 0x1p-2); (0x1p-1, 0x1p-1); (0x1p-2, 0x1.8p-1)]%float)
  end.
Proof.
  apply (decision_boundary_first_crossing
           [0x1p+0; 0x1.8p+0; 0x1p+1]%float
           [(0x1.8p-1, 0x1p-2); (0x1p-1, 0x1p-1); (0x1p-2, 0x1.8p-1)]%float).
  reflexivity.
Defined.

(** X20: reading the boundary fails exactly when the probabilities do not
    have one row per grid point or when no second-column probability is
    at least 0.5. *)
Theorem decision_boundary_fails_iff
        (X_new : list PrimFloat.float)
        (y_proba : list (PrimFloat.float * PrimFloat.float)) :
  ProbabilityCell.decision_boundary X_new y_proba = None
  <-> (length X_new <> length y_proba
       \/ Forall (fun p => ProbabilityCell.ge_half p = false)
                 (ProbabilityCell.column1 y_proba)).
Proof.
  unfold ProbabilityCell.decision_boundary.
  set (col := ProbabilityCell.column1 y_proba).
  assert (Hlen : length (map ProbabilityCell.ge_half col) = length y_proba).
  { unfold col, ProbabilityCell.column1. rewrite !length_map. reflexivity. }
  destruct (ProbabilityCell.boolean_index
              X_new (map ProbabilityCell.ge_half col)) as [sel|] eqn:E.
  - assert (Hshape : length X_new = length y_proba).
    { destruct (Nat.eq_dec (length X_new) (length y_proba)) as [H|H];
        [exact H|].
      rewrite <- Hlen in H. apply boolean_index_shape in H. congruence. }
    apply boolean_index_first in E. destruct sel as [|first rest].
    + split; [|reflexivity]. intros _. right.
      rewrite Forall_map in E. exact E.
    + split; [discriminate|]. intros [H|H]; [contradiction|]. exfalso.
      destruct E as (i & _ & Hmask & _).
      rewrite nth_error_map in Hmask.
      destruct (nth_error col i) as [p|] eqn:Hp; [|discriminate].
      rewrite Forall_forall in H.
      specialize (H p (nth_error_In _ _ Hp)).
      simpl in Hmask. congruence.
  - split; [|reflexivity]. intros _. left.
    apply boolean_index_shape in E. rewrite Hlen in E. exact E.
Qed.



(** ** Non-finite values in binary64 *)

Lemma sub_nan_l (y : PrimFloat.float) :
  PrimFloat.sub PrimFloat.nan y = PrimFloat.nan.
Proof.
  apply FloatAxioms.Prim2SF_inj. rewrite FloatAxioms.sub_spec. reflexivity.
Qed.

Lemma sub_nan_r (x : PrimFloat.float) :
  PrimFloat.sub x PrimFloat.nan = PrimFloat.nan.
Proof.
  apply FloatAxioms.Prim2SF_inj. rewrite FloatAxioms.sub_spec.
  change (FloatOps.Prim2SF PrimFloat.nan) with SpecFloat.S754_nan.
  destruct (FloatOps.Prim2SF x); reflexivity.
Qed.

Lemma mul_zero_infinite (y : PrimFloat.float) :
  infinite y = true -> PrimFloat.mul PrimFloat.zero y = PrimFloat.nan.
Proof.
  unfold infinite. intros Hy.
  apply FloatAxioms.Prim2SF_inj. rewrite FloatAxioms.mul_spec.
  change (FloatOps.Prim2SF PrimFloat.zero) with (SpecFloat.S754_zero false).
  destruct (FloatOps.Prim2SF y); try discriminate. reflexivity.
Qed.

Lemma update_nan (learning_rate : PrimFloat.float)
      (gradient_func : PrimFloat.float -> PrimFloat.float) (k : nat) :
  Nat.iter k (update learning_rate gradient_func) PrimFloat.nan = PrimFloat.nan.
Proof.
  induction k as [|k IH]; [reflexivity|].
  rewrite Nat.iter_succ, IH. unfold update. apply sub_nan_l.
Qed.

Lemma eqb_after_sub_zero (sv sy : SpecFloat.spec_float) (s : bool) :
  SpecFloat.SFeqb sv sy = true ->
  SpecFloat.SFeqb (FloatAxioms.SF64sub sv (SpecFloat.S754_zero s)) sy = true.
Proof.
  destruct sv as [sx|sx| |sx mx ex]; destruct sy; intros H;
    try discriminate; try exact H;
    destruct sx, s; exact H.
Qed.

Lemma mul_zero_finite (y : PrimFloat.float) :
  finite y = true ->
  exists s : bool,
    FloatOps.Prim2SF (PrimFloat.mul PrimFloat.zero y) = SpecFloat.S754_zero s.
Proof.
  unfold finite. intros Hy. rewrite FloatAxioms.mul_spec.
  change (FloatOps.Prim2SF PrimFloat.zero) with (SpecFloat.S754_zero false).
  destruct (FloatOps.Prim2SF y) as [sy|sy| |sy my ey]; try discriminate;
    eexists; reflexivity.
Qed.

(** X22: in binary64 a NaN never leaves the path: once an element is NaN,
    every later element is NaN, for every rate and gradient function. *)
Theorem nan_propagates
        (start learning_rate : PrimFloat.float)
        (gradient_func : PrimFloat.float -> PrimFloat.float)
        (steps : Z) (i j : nat) :
  (i <= j)%nat -> (Z.of_nat j <= steps)%Z ->
  nth_error (GradientCell.gradient_descent_update
               start learning_rate gradient_func steps) i
  = Some PrimFloat.nan ->
  nth_error (GradientCell.gradient_descent_update
               start learning_rate gradient_func steps) j
  = Some PrimFloat.nan.
Proof.
  intros Hij Hj. rewrite gradient_descent_update_iterates.
  rewrite !iterates_nth by (unfold range_len; lia).
  intros [= Hi]. f_equal.
  replace j with ((j - i) + i)%nat by lia.
  rewrite Nat.iter_add, Hi. apply update_nan.
Qed.

Lemma nan_propagates_witness :
  nth_error (GradientCell.gradient_descent_update
               PrimFloat.nan (of_decimal 1 10) GradientCell.steep_gradient 10%Z)
            7
  = Some PrimFloat.nan.
Proof.
  apply (nan_propagates PrimFloat.nan (of_decimal 1 10)
                        GradientCell.steep_gradient 10%Z 0 7);
    [lia | lia | reflexivity].
Defined.

(** X23: in binary64, learning rate 0 leaves the path at the start as long
    as the gradient is finite there: for a start that is not NaN and a
    gradient function with finite values at every point comparing equal
    to the start, every element compares equal ([==]) to the start. *)
Theorem zero_rate_binary64
        (x0 : PrimFloat.float)
        (gradient_func : PrimFloat.float -> PrimFloat.float) (steps : Z) :
  PrimFloat.eqb x0 x0 = true ->
  (forall x, PrimFloat.eqb x x0 = true -> finite (gradient_func x) = true) ->
  Forall (fun v => PrimFloat.eqb v x0 = true)
         (GradientCell.gradient_descent_update
            x0 (of_int 0) gradient_func steps).
Proof.
  intros Hx0 Hfin. rewrite gradient_descent_update_iterates.
  apply iterates_inv; [exact Hx0|].
  intros v Hv. unfold update.
  destruct (mul_zero_finite (gradient_func v) (Hfin v Hv)) as [s Hs].
  rewrite FloatAxioms.eqb_spec in *.
  rewrite FloatAxioms.sub_spec.
  change (mul (of_int 0) (gradient_func v))
    with (PrimFloat.mul PrimFloat.zero (gradient_func v)).
  rewrite Hs. apply eqb_after_sub_zero. exact Hv.
Qed.

Lemma zero_rate_binary64_witness :
  Forall (fun v => PrimFloat.eqb v (of_int 8) = true)
         (GradientCell.gradient_descent_update
            (of_int 8) (of_int 0) (fun _ => of_decimal 1 10) 10%Z).
Proof.
  apply (zero_rate_binary64 (of_int 8) (fun _ => of_decimal 1 10) 10%Z).
  - vm_compute. reflexivity.
  - intros x _. vm_compute. reflexivity.
Defined.

(** X24: in binary64, learning rate 0 does not protect the path from an
    overflowing gradient: when the gradient at the start is infinite,
    [0 * inf] is NaN and every element after the start is NaN. *)
Theorem zero_rate_infinite_gradient
        (x0 : PrimFloat.float)
        (gradient_func : PrimFloat.float -> PrimFloat.float)
        (steps : Z) (i : nat) :
  infinite (gradient_func x0) = true ->
  (1 <= i)%nat -> (Z.of_nat i <= steps)%Z ->
  nth_error (GradientCell.gradient_descent_update
               x0 (of_int 0) gradient_func steps) i
  = Some PrimFloat.nan.
Proof.
  intros Hinf Hi Hle. rewrite gradient_descent_update_iterates.
  rewrite iterates_nth by (unfold range_len; lia).
  f_equal. destruct i as [|k]; [lia|].
  rewrite Nat.iter_succ_r.
  replace (update (of_int 0) gradient_func x0) with PrimFloat.nan.
  - apply update_nan.
  - unfold update.
    change (mul (of_int 0) (gradient_func x0))
      with (PrimFloat.mul PrimFloat.zero (gradient_func x0)).
    rewrite (mul_zero_infinite _ Hinf). symmetry. apply sub_nan_r.
Qed.

Lemma zero_rate_infinite_gradient_witness :
  nth_error (GradientCell.gradient_descent_update
               0x1p+1023%float (of_int 0) GradientCell.steep_gradient 10%Z) 1
  = Some PrimFloat.nan.
Proof.
  apply (zero_rate_infinite_gradient
           0x1p+1023%float GradientCell.steep_gradient 10%Z 1);
    [vm_compute; reflexivity | lia | lia].
Defined.
